(** * LoggingLightRAG: the usage-logging wrapper of
      [lightrag_expriments/notebooks/lightraglogger.py]

    The class [LoggingLightRAG] subclasses the external [LightRAG] engine and
    wraps its insert and query operations with usage accounting.  This file
    embeds the class in Rocq and establishes the accounting properties of
    its specification.

    Modelling choices.
    - Python values are the JSON-like fragment [pyval] (None, int, str, list,
      dict with string keys).  Python integers are unbounded: [Z].  Floats
      and booleans are not represented: nothing here speaks of a response
      that carries one.
    - The operations Python applies to a response ([in], subscription,
      [.get], [+=]) are total functions into [result]; a dynamic type error
      is a raised [exn].
    - Methods live in the state-and-exception monad [M].  State changes made
      before an exception is raised persist, as in Python.
    - The engine ([ainsert], [LightRAG.query], [LightRAG.__init__]), the
      file system and the clock are external: what they answer at one call
      is given by an environment record.  The engine acts on the wrapper
      only through what its operation returns or raises; what it logs or
      writes on its own is not represented.
    - [usage_log] is the sequence of lines the wrapper's own code hands to
      the root logger, without the [asctime] prefix; an f-string is the
      list of its pieces.  Handing a line to the logger does not raise.
      What the handlers do with a line, and what other code logs, is
      outside.
    - [files] holds the JSON files the wrapper writes, each as the list of
      the complete blocks dumped to it; usage.log is not among them.  A
      write that fails raises [OSError] and adds no block.
    - Signals delivered between two statements are not modelled. *)

From Stdlib Require Import ZArith Ascii String List Lia.
From stdpp Require Import base option list gmap strings.

Set Warnings "-register-all".

Local Open Scope string_scope.
Local Open Scope list_scope.
Local Open Scope Z_scope.

(** ** Python values and exceptions *)

Inductive pyval : Type :=
| PNone
| PInt (z : Z)
| PStr (s : string)
| PList (l : list pyval)
| PDict (d : gmap string pyval).

(** Exception classes.  [KeyboardInterrupt], [SystemExit] and
    [asyncio.CancelledError] derive from [BaseException] only; every other
    class here derives from [Exception]. *)
Inductive exn_class : Type :=
| TypeError
| AttributeError
| KeyError
| OSError
| KeyboardInterrupt
| SystemExit
| CancelledError
| OtherException (name : string).

Record exn : Type := mk_exn { exn_cls : exn_class; exn_args : string }.

(** [isinstance(e, Exception)] *)
Definition is_Exception (e : exn) : bool :=
  match exn_cls e with
  | KeyboardInterrupt | SystemExit | CancelledError => false
  | _ => true
  end.

Inductive result (A : Type) : Type :=
| Ok (a : A)
| Raise (e : exn).
Arguments Ok {A} a.
Arguments Raise {A} e.

(** ** Operators applied to a response *)

(** [needle in hay] on two strings: substring test. *)
Fixpoint str_contains (needle hay : string) : bool :=
  String.prefix needle hay ||
  match hay with
  | EmptyString => false
  | String _ rest => str_contains needle rest
  end.

(** [v == key] for a string [key]. *)
Definition py_eq_str (key : string) (v : pyval) : bool :=
  match v with
  | PStr s => String.eqb s key
  | _ => false
  end.

(** [key in container] *)
Definition py_contains (key : string) (container : pyval) : result bool :=
  match container with
  | PDict d => Ok (bool_decide (is_Some (d !! key)))
  | PStr s => Ok (str_contains key s)
  | PList l => Ok (existsb (py_eq_str key) l)
  | PInt _ => Raise (mk_exn TypeError "argument of type 'int' is not iterable")
  | PNone => Raise (mk_exn TypeError "argument of type 'NoneType' is not iterable")
  end.

(** [container[key]] for a string [key] *)
Definition py_getitem (container : pyval) (key : string) : result pyval :=
  match container with
  | PDict d =>
      match d !! key with
      | Some v => Ok v
      | None => Raise (mk_exn KeyError key)
      end
  | PStr _ => Raise (mk_exn TypeError "string indices must be integers, not 'str'")
  | PList _ => Raise (mk_exn TypeError "list indices must be integers or slices, not str")
  | PInt _ => Raise (mk_exn TypeError "'int' object is not subscriptable")
  | PNone => Raise (mk_exn TypeError "'NoneType' object is not subscriptable")
  end.

(** [obj.get(key, dflt)] *)
Definition py_get (obj : pyval) (key : string) (dflt : pyval) : result pyval :=
  match obj with
  | PDict d => Ok (default dflt (d !! key))
  | PStr _ => Raise (mk_exn AttributeError "'str' object has no attribute 'get'")
  | PList _ => Raise (mk_exn AttributeError "'list' object has no attribute 'get'")
  | PInt _ => Raise (mk_exn AttributeError "'int' object has no attribute 'get'")
  | PNone => Raise (mk_exn AttributeError "'NoneType' object has no attribute 'get'")
  end.

(** [n += v] for an integer [n] *)
Definition py_iadd (n : Z) (v : pyval) : result Z :=
  match v with
  | PInt z => Ok (n + z)
  | PStr _ => Raise (mk_exn TypeError "unsupported operand type(s) for +=: 'int' and 'str'")
  | PList _ => Raise (mk_exn TypeError "unsupported operand type(s) for +=: 'int' and 'list'")
  | PDict _ => Raise (mk_exn TypeError "unsupported operand type(s) for +=: 'int' and 'dict'")
  | PNone => Raise (mk_exn TypeError "unsupported operand type(s) for +=: 'int' and 'NoneType'")
  end.

(** [os.path.join(a, b)] on POSIX *)
Fixpoint ends_with_slash (a : string) : bool :=
  match a with
  | EmptyString => false
  | String c EmptyString => Ascii.eqb c "/"%char
  | String _ rest => ends_with_slash rest
  end.

Definition os_path_join (a b : string) : string :=
  if String.prefix "/" b then b
  else if String.eqb a "" then b
  else if ends_with_slash a then a +:+ b
  else a +:+ "/" +:+ b.

(** ** Log lines and wrapper state *)

Inductive level : Type := INFO | WARNING | ERROR.

(** One piece of an f-string: literal text or an interpolated value. *)
Inductive piece : Type :=
| Lit (s : string)
| Num (z : Z)
| Val (v : pyval)
| Exc (e : exn).

Record log_line : Type := mk_line { line_level : level; line_msg : list piece }.

Record state : Type := mk_state {
  log_dir : string;
  engine_attrs : list (string * pyval);
  api_call_count : Z;
  total_token_usage : Z;
  encoding : option pyval;
  usage_log : list log_line;
  files : gmap string (list pyval)
}.

Definition set_log_dir (v : string) (s : state) : state :=
  mk_state v (engine_attrs s) (api_call_count s) (total_token_usage s)
           (encoding s) (usage_log s) (files s).
Definition set_engine_attrs (v : list (string * pyval)) (s : state) : state :=
  mk_state (log_dir s) v (api_call_count s) (total_token_usage s)
           (encoding s) (usage_log s) (files s).
Definition set_api_call_count (v : Z) (s : state) : state :=
  mk_state (log_dir s) (engine_attrs s) v (total_token_usage s)
           (encoding s) (usage_log s) (files s).
Definition set_total_token_usage (v : Z) (s : state) : state :=
  mk_state (log_dir s) (engine_attrs s) (api_call_count s) v
           (encoding s) (usage_log s) (files s).
Definition set_encoding (v : option pyval) (s : state) : state :=
  mk_state (log_dir s) (engine_attrs s) (api_call_count s) (total_token_usage s)
           v (usage_log s) (files s).
Definition set_usage_log (v : list log_line) (s : state) : state :=
  mk_state (log_dir s) (engine_attrs s) (api_call_count s) (total_token_usage s)
           (encoding s) v (files s).
Definition set_files (v : gmap string (list pyval)) (s : state) : state :=
  mk_state (log_dir s) (engine_attrs s) (api_call_count s) (total_token_usage s)
           (encoding s) (usage_log s) v.

(** ** The state-and-exception monad *)

Definition M (A : Type) : Type := state → result A * state.

#[global] Instance M_ret : MRet M := λ A a s, (Ok a, s).
#[global] Instance M_bind : MBind M := λ A B f m s,
  match m s with
  | (Ok a, s') => f a s'
  | (Raise e, s') => (Raise e, s')
  end.

Definition get_state : M state := λ s, (Ok s, s).
Definition modify (f : state → state) : M unit := λ s, (Ok tt, f s).
Definition lift {A} (r : result A) : M A := λ s, (r, s).
Definition raise {A} (e : exn) : M A := λ s, (Raise e, s).

(** [try: body  except Exception as e: handler e] *)
Definition try_except {A} (body : M A) (handler : exn → M A) : M A := λ s,
  match body s with
  | (Ok a, s') => (Ok a, s')
  | (Raise e, s') => if is_Exception e then handler e s' else (Raise e, s')
  end.

(** [logging.info], [logging.warning], [logging.error] *)
Definition logging (lv : level) (msg : list piece) : M unit :=
  modify (λ s, set_usage_log (usage_log s ++ [mk_line lv msg]) s).

(** ** The external world at one call *)

Inductive io_result : Type :=
| IoOk
| IoError (msg : string).

Inductive outcome : Type :=
| Returns (v : pyval)
| Raises (e : exn).

Record env : Type := mk_env {
  delegate : outcome;   (* what the engine's operation does on this call *)
  disk : io_result;     (* whether the append to the JSON file goes through *)
  clock : string        (* time.strftime("%Y-%m-%d %H:%M:%S") *)
}.

Definition await (o : outcome) : M pyval :=
  match o with
  | Returns v => mret v
  | Raises e => raise e
  end.

(** [with open(filepath, "a") as f: json.dump(data, f, indent=4); f.write("\n")] *)
Definition open_append (io : io_result) (filepath : string) (data : pyval) : M unit :=
  match io with
  | IoOk => modify (λ s,
      set_files (<[filepath := default [] (files s !! filepath) ++ [data]]> (files s)) s)
  | IoError msg => raise (mk_exn OSError msg)
  end.

(** [with open(filepath, "w") as f: json.dump(data, f, indent=4)] *)
Definition open_write (io : io_result) (filepath : string) (data : pyval) : M unit :=
  match io with
  | IoOk => modify (λ s, set_files (<[filepath := [data]]> (files s)) s)
  | IoError msg => raise (mk_exn OSError msg)
  end.

(** ** The methods of [LoggingLightRAG] *)

(** The engine's coroutines [self.ainsert(document)] and
    [super().query(query, param)]: awaiting one yields this call's
    [delegate] outcome. *)
Definition ainsert (ev : env) (document : pyval) : M pyval :=
  await (delegate ev).

Definition super_query (ev : env) (query param : pyval) : M pyval :=
  await (delegate ev).

Definition _write_to_file (io : io_result) (filename : string) (data : pyval) : M unit :=
  try_except
    (s ← get_state;
     let filepath := os_path_join (log_dir s) filename in
     open_append io filepath data;;
     logging INFO [Lit "Data written to "; Lit filepath; Lit "."])
    (λ e, logging ERROR
            [Lit "Error writing data to file "; Lit filename; Lit ": "; Exc e]).

Definition _log_api_usage (ev : env) (operation : string) (response : pyval) : M unit :=
  modify (λ s, set_api_call_count (api_call_count s + 1) s);;
  has_usage ← lift (py_contains "usage" response);
  if (has_usage : bool) then
    usage ← lift (py_getitem response "usage");
    token_usage ← lift (py_get usage "total_tokens" (PInt 0));
    s ← get_state;
    total ← lift (py_iadd (total_token_usage s) token_usage);
    modify (set_total_token_usage total);;
    s ← get_state;
    logging INFO [Lit "API Call #"; Num (api_call_count s);
                  Lit " ("; Lit operation; Lit ")"];;
    logging INFO [Lit "  Token Usage: "; Val token_usage];;
    logging INFO [Lit "  Total Token Usage: "; Num (total_token_usage s)];;
    let log_data := PDict {[
      "api_call" := PInt (api_call_count s);
      "operation" := PStr operation;
      "token_usage" := token_usage;
      "total_token_usage" := PInt (total_token_usage s);
      "timestamp" := PStr (clock ev) ]} in
    _write_to_file (disk ev) "api_usage_log.json" log_data
  else
    logging WARNING [Lit "API Response for "; Lit operation;
                     Lit " did not include 'usage' data."].

(** [loop = asyncio.get_event_loop()] only reads the running loop into a
    local that is never used. *)
Definition insert (ev : env) (document : pyval) : M pyval :=
  try_except
    (result ← ainsert ev document;
     match result with
     | PNone =>
         logging WARNING [Lit "Insert operation returned None."];;
         mret PNone
     | _ =>
         _log_api_usage ev "insert" result;;
         logging INFO [Lit "Document(s) inserted into LoggingLightRAG."];;
         mret result
     end)
    (λ e, logging ERROR [Lit "Error during document insertion: "; Exc e];;
          raise e).

(** [start_time] and [end_time] are read from the clock and never used. *)
Definition query (ev : env) (query param : pyval) : M pyval :=
  try_except
    (response ← super_query ev query param;
     _log_api_usage ev "query" response;;
     mret response)
    (λ e, logging ERROR [Lit "Error during query execution: "; Exc e];;
          raise e).

(** ** Construction *)

(** The second argument of [isinstance]: a class, or some other object.
    [dataclasses.dataclass] is the decorator, a plain function. *)
Inductive classinfo : Type :=
| AClass (name : string)
| AFunction (name : string).

Definition dataclass : classinfo := AFunction "dataclass".

(** [isinstance(obj, c)] for an object whose class has the given method
    resolution order; a [c] that is no class makes it raise. *)
Definition isinstance (mro : list string) (c : classinfo) : result bool :=
  match c with
  | AClass name => Ok (existsb (String.eqb name) mro)
  | AFunction _ =>
      Raise (mk_exn TypeError
               "isinstance() arg 2 must be a type, a tuple of types, or a union")
  end.

Definition self_mro : list string := ["LoggingLightRAG"; "LightRAG"; "object"].

(** [vars(self)] when [_log_initialization] runs: the attributes in the
    order [__init__] assigned them. *)
Definition vars_self (s : state) : list (string * pyval) :=
  [("log_dir", PStr (log_dir s))] ++ engine_attrs s ++
  [("api_call_count", PInt (api_call_count s));
   ("total_token_usage", PInt (total_token_usage s))].

(** [asdict(self)]: the dataclass fields, those of the engine. *)
Definition asdict_self (s : state) : list (string * pyval) := engine_attrs s.

Record init_env : Type := mk_init_env {
  makedirs : option exn;                         (* os.makedirs raising, if it does *)
  basic_config : option exn;                     (* logging.basicConfig raising, if it does *)
  super_init : result (list (string * pyval));   (* attributes LightRAG.__init__ sets *)
  snapshot_disk : io_result;                     (* writing initialization.json *)
  encoding_for_model : result pyval              (* tiktoken.encoding_for_model(...) *)
}.

Fixpoint for_each {A} (l : list A) (body : A → M unit) : M unit :=
  match l with
  | [] => mret tt
  | x :: rest => body x;; for_each rest body
  end.

Definition raise_if (o : option exn) : M unit :=
  match o with
  | Some e => raise e
  | None => mret tt
  end.

Definition _set_logger (ie : init_env) (log_file : string) : M unit :=
  raise_if (basic_config ie);;
  logging INFO [Lit "Logger initialized. Writing logs to "; Lit log_file; Lit "."].

Definition _log_initialization (ie : init_env) : M unit :=
  logging INFO [Lit "LoggingLightRAG initialized with the following parameters:"];;
  try_except
    (is_dc ← lift (isinstance self_mro dataclass);
     s ← get_state;
     let attributes := if (is_dc : bool) then asdict_self s else vars_self s in
     for_each attributes (λ av,
       logging INFO [Lit "- "; Lit av.1; Lit ": "; Val av.2]);;
     let init_file := os_path_join (log_dir s) "initialization.json" in
     open_write (snapshot_disk ie) init_file (PDict (list_to_map attributes));;
     logging INFO [Lit "Initialization details written to "; Lit init_file; Lit "."])
    (λ e, logging ERROR [Lit "Error logging initialization parameters: "; Exc e]).

Definition __init__ (ie : init_env) (log_dir_arg : string) : M unit :=
  modify (set_log_dir log_dir_arg);;
  raise_if (makedirs ie);;
  s ← get_state;
  let log_file := os_path_join (log_dir s) "usage.log" in
  _set_logger ie log_file;;
  attrs ← lift (super_init ie);
  modify (set_engine_attrs attrs);;
  modify (set_api_call_count 0);;
  modify (set_total_token_usage 0);;
  _log_initialization ie;;
  enc ← lift (encoding_for_model ie);
  modify (set_encoding (Some enc)).

(** ** Sequences of calls on one wrapper *)

Inductive call : Type :=
| Insert (ev : env) (document : pyval)
| Query (ev : env) (query param : pyval).

Definition call_env (c : call) : env :=
  match c with
  | Insert ev _ => ev
  | Query ev _ _ => ev
  end.

Definition perform (c : call) : M pyval :=
  match c with
  | Insert ev document => insert ev document
  | Query ev q p => query ev q p
  end.

(** The state after the calls [cs], one after the other; a call that raises
    leaves the wrapper usable for the next. *)
Definition run (cs : list call) (s : state) : state :=
  fold_left (λ st c, (perform c st).2) cs s.

(** A wrapper right after a successful construction. *)
Definition constructed (s : state) : Prop :=
  ∃ ie dir s0, __init__ ie dir s0 = (Ok tt, s).

(** The blocks of [<log_dir>/api_usage_log.json] and the content of
    [<log_dir>/initialization.json], if the file exists. *)
Definition api_usage_log_json (s : state) : list pyval :=
  default [] (files s !! os_path_join (log_dir s) "api_usage_log.json").

Definition initialization_json (s : state) : option (list pyval) :=
  files s !! os_path_join (log_dir s) "initialization.json".

(** ** Vocabulary of the properties *)

(** The token count a response reports: its 'usage' field is a mapping
    whose 'total_tokens' is an integer, or is absent and counts as 0. *)
Definition usage_tokens (response : pyval) : option Z :=
  match response with
  | PDict d =>
      match d !! "usage" with
      | Some (PDict u) =>
          match default (PInt 0) (u !! "total_tokens") with
          | PInt t => Some t
          | _ => None
          end
      | _ => None
      end
  | _ => None
  end.

Definition call_tokens (c : call) : option Z :=
  match delegate (call_env c) with
  | Returns r => usage_tokens r
  | Raises _ => None
  end.

Definition nonneg_tokens (c : call) : bool :=
  match call_tokens c with
  | Some t => 0 <=? t
  | None => true
  end.

(** The responses on which the usage extraction does not raise. *)
Definition usage_extractable (r : pyval) : bool :=
  match r with
  | PDict d =>
      match d !! "usage" with
      | None => true
      | Some (PDict u) =>
          match default (PInt 0) (u !! "total_tokens") with
          | PInt _ => true
          | _ => false
          end
      | Some _ => false
      end
  | PStr s => negb (str_contains "usage" s)
  | PList l => negb (existsb (py_eq_str "usage") l)
  | PInt _ | PNone => false
  end.


Definition op_name (c : call) : string :=
  match c with
  | Insert _ _ => "insert"
  | Query _ _ _ => "query"
  end.

Definition sum_tokens (ts : list Z) : Z := foldr Z.add 0 ts.

Definition usage_record (n : Z) (op : string) (t total : Z) (stamp : string) : pyval :=
  PDict {[
    "api_call" := PInt n;
    "operation" := PStr op;
    "token_usage" := PInt t;
    "total_token_usage" := PInt total;
    "timestamp" := PStr stamp ]}.


Definition append_block (io : io_result) (s : state) (block : pyval)
  : gmap string (list pyval) :=
  match io with
  | IoOk =>
      <[os_path_join (log_dir s) "api_usage_log.json" :=
          api_usage_log_json s ++ [block]]> (files s)
  | IoError _ => files s
  end.

Definition add_line (line : log_line) (s : state) : state :=
  set_usage_log (usage_log s ++ [line]) s.

Definition usage_warning (op : string) : log_line :=
  mk_line WARNING
    [Lit "API Response for "; Lit op; Lit " did not include 'usage' data."].

Definition inserted_line : log_line :=
  mk_line INFO [Lit "Document(s) inserted into LoggingLightRAG."].

Definition none_warning : log_line :=
  mk_line WARNING [Lit "Insert operation returned None."].

Definition error_line (c : call) (e : exn) : log_line :=
  mk_line ERROR
    [Lit (match c with
          | Insert _ _ => "Error during document insertion: "
          | Query _ _ _ => "Error during query execution: "
          end);
     Exc e].

(** ** Concrete inputs *)

(** Before [__init__] runs the attribute slots hold nothing meaningful. *)
Definition before_init : state := mk_state "" [] 7 9 None [] ∅.

Definition ok_init : init_env :=
  mk_init_env None None (Ok [("tiktoken_model_name", PStr "gpt-4o-mini")]) IoOk
    (Ok (PStr "o200k_base")).

Definition s_init : state := (__init__ ok_init "./logs" before_init).2.

Definition usage_response (t : Z) : pyval :=
  PDict {[ "usage" := PDict {[ "total_tokens" := PInt t ]} ]}.


Definition at_ten : string := "2024-05-01 10:00:00".

Definition example_calls : list call :=
  [Insert (mk_env (Returns (usage_response 42)) IoOk at_ten) (PStr "doc");
   Query (mk_env (Returns (usage_response 8)) IoOk "2024-05-01 10:00:05")
     (PStr "question") PNone].

Definition bare_query : call :=
  Query (mk_env (Returns (PDict ∅)) IoOk at_ten) (PStr "question") PNone.


Definition cancelled : exn := mk_exn CancelledError "".

Definition cancelled_insert : call :=
  Insert (mk_env (Raises cancelled) IoOk at_ten) (PStr "doc").

Definition timeout_error : exn :=
  mk_exn (OtherException "APITimeoutError") "Request timed out.".

Definition failing_query : call :=
  Query (mk_env (Raises timeout_error) IoOk at_ten) (PStr "question") PNone.

Definition none_env : env := mk_env (Returns PNone) IoOk at_ten.

Definition null_usage_query : call :=
  Query (mk_env (Returns (PDict {[ "usage" := PNone ]})) IoOk at_ten)
    (PStr "question") PNone.

Definition refund_query : call :=
  Query (mk_env (Returns (usage_response (-5))) IoOk at_ten) (PStr "question") PNone.



(** ** Vocabulary of the further properties *)

(** The calls that reach [_log_api_usage]: the delegate returned, and what
    an insert got back is not None. *)
Definition is_counted (c : call) : bool :=
  match delegate (call_env c) with
  | Returns PNone =>
      match c with
      | Insert _ _ => false
      | Query _ _ _ => true
      end
  | Returns _ => true
  | Raises _ => false
  end.

Definition reported_tokens (c : call) : Z := default 0 (call_tokens c).

(** The record a call leaves in api_usage_log.json, if any, when [n] calls
    and [total] tokens were counted before it. *)
Definition call_record (n total : Z) (c : call) : option pyval :=
  match call_tokens c, disk (call_env c) with
  | Some t, IoOk =>
      Some (usage_record (n + 1) (op_name c) t (total + t) (clock (call_env c)))
  | _, _ => None
  end.

Fixpoint records_of (n total : Z) (cs : list call) : list pyval :=
  match cs with
  | [] => []
  | c :: cs' =>
      option_list (call_record n total c) ++
      records_of (n + (if is_counted c then 1 else 0))
        (total + reported_tokens c) cs'
  end.

(** The call index stored in a record. *)
Definition api_call_of (rec : pyval) : option Z :=
  match rec with
  | PDict d =>
      match d !! "api_call" with
      | Some (PInt a) => Some a
      | _ => None
      end
  | _ => None
  end.

Definition is_substring (needle hay : string) : Prop :=
  ∃ pre post, hay = pre +:+ needle +:+ post.

(** The lines [_log_api_usage] logs before it writes the record. *)
Definition usage_lines (n : Z) (op : string) (t total : Z) : list log_line :=
  [mk_line INFO [Lit "API Call #"; Num n; Lit " ("; Lit op; Lit ")"];
   mk_line INFO [Lit "  Token Usage: "; Val (PInt t)];
   mk_line INFO [Lit "  Total Token Usage: "; Num total]].

(** The line [_write_to_file] logs, by the outcome of the write. *)
Definition write_line (io : io_result) (dir filename : string) : log_line :=
  match io with
  | IoOk =>
      mk_line INFO [Lit "Data written to "; Lit (os_path_join dir filename); Lit "."]
  | IoError msg =>
      mk_line ERROR
        [Lit "Error writing data to file "; Lit filename; Lit ": ";
         Exc (mk_exn OSError msg)]
  end.

(** The state a call leaves when the usage extraction raised [e]. *)
Definition after_failed_extraction (c : call) (e : exn) (s : state) : state :=
  add_line (error_line c e) (set_api_call_count (api_call_count s + 1) s).

(** ** Further concrete inputs *)

Definition swapped_calls : list call :=
  [Query (mk_env (Returns (usage_response 8)) IoOk "2024-05-01 10:00:05")
     (PStr "question") PNone;
   Insert (mk_env (Returns (usage_response 42)) IoOk at_ten) (PStr "doc")].


Definition none_query : call := Query none_env (PStr "question") PNone.

Definition prose_query : call :=
  Query (mk_env (Returns (PStr "The budget grew.")) IoOk at_ten)
    (PStr "question") PNone.

Definition usage_prose_query : call :=
  Query (mk_env (Returns (PStr "Token usage was low.")) IoOk at_ten)
    (PStr "question") PNone.



Definition no_directory : init_env :=
  mk_init_env (Some (mk_exn OSError "Permission denied")) None (Ok []) IoOk
    (Ok (PStr "o200k_base")).

(** ** Proof automation *)

(** Runs the monadic code of one method on the state at hand. *)
Ltac run_M :=
  cbv beta iota zeta delta
    [_log_api_usage _write_to_file insert query ainsert super_query await
     try_except logging modify lift get_state raise open_append open_write
     mbind M_bind mret M_ret is_Exception exn_cls
     set_log_dir set_engine_attrs set_api_call_count set_total_token_usage
     set_encoding set_usage_log set_files
     log_dir engine_attrs api_call_count total_token_usage encoding
     usage_log files fst snd py_iadd py_contains py_getitem py_get].

(** Runs [insert] and [query] down to their call of [_log_api_usage]. *)
Ltac run_call :=
  cbv beta iota zeta delta
    [perform insert query ainsert super_query await try_except logging modify
     lift get_state raise mbind M_bind mret M_ret call_env op_name].

(** ** Accounting of one response: [_log_api_usage] *)

Section accounting.
Context (ev : env) (operation : string).

(** A response that reports [t] tokens is counted, added and recorded. *)
Lemma log_api_usage_tokens r t s :
  usage_tokens r = Some t →
  ∃ lines,
    _log_api_usage ev operation r s =
    (Ok tt,
     mk_state (log_dir s) (engine_attrs s) (api_call_count s + 1)
       (total_token_usage s + t) (encoding s) (usage_log s ++ lines)
       (append_block (disk ev) s
          (usage_record (api_call_count s + 1) operation t
             (total_token_usage s + t) (clock ev)))).
Proof.
  intros Ht. destruct r as [| | | |d]; try discriminate Ht.
  simpl in Ht.
  destruct (d !! "usage") as [[| | | |u]|] eqn:Hu; try discriminate Ht.
  destruct (default (PInt 0) (u !! "total_tokens")) as [|z| | |] eqn:Htt;
    try discriminate Ht.
  injection Ht as ->.
  unfold api_usage_log_json, append_block, usage_record.
  destruct s; run_M. rewrite Hu, bool_decide_eq_true_2 by eauto. run_M.
  rewrite Htt.
  destruct (disk ev); run_M; rewrite <- ?app_assoc; eexists; reflexivity.
Qed.

(** A response in which ['usage' in response] is false is counted and
    warned about. *)
Lemma log_api_usage_absent r s :
  py_contains "usage" r = Ok false →
  _log_api_usage ev operation r s =
  (Ok tt,
   add_line (usage_warning operation)
     (set_api_call_count (api_call_count s + 1) s)).
Proof.
  intros Hin. destruct s. unfold usage_warning, add_line.
  cbv beta iota zeta delta
    [_log_api_usage logging modify lift mbind M_bind set_api_call_count
     set_usage_log log_dir engine_attrs api_call_count total_token_usage
     encoding usage_log files].
  rewrite Hin. reflexivity.
Qed.

(** On any other response the extraction raises, after the call was
    counted. *)
Lemma log_api_usage_raises r s :
  usage_extractable r = false →
  ∃ e, is_Exception e = true ∧
       _log_api_usage ev operation r s =
       (Raise e, set_api_call_count (api_call_count s + 1) s).
Proof.
  intros Hx. destruct s.
  destruct r as [| |str|l|d]; simpl in Hx.
  - eexists; split; [|run_M; reflexivity]; reflexivity.
  - eexists; split; [|run_M; reflexivity]; reflexivity.
  - apply negb_false_iff in Hx.
    eexists; split; [|run_M; rewrite Hx; run_M; reflexivity]; reflexivity.
  - apply negb_false_iff in Hx.
    eexists; split; [|run_M; rewrite Hx; run_M; reflexivity]; reflexivity.
  - destruct (d !! "usage") as [[| | | |u]|] eqn:Hu; try discriminate Hx;
      try (eexists; split;
           [|run_M; rewrite Hu, bool_decide_eq_true_2 by eauto; run_M;
             reflexivity];
           reflexivity).
    destruct (default (PInt 0) (u !! "total_tokens")) eqn:Htt;
      try discriminate Hx;
      (eexists; split;
       [|run_M; rewrite Hu, bool_decide_eq_true_2 by eauto; run_M;
         rewrite Htt; reflexivity];
       reflexivity).
Qed.
End accounting.

Lemma extractable_cases r :
  usage_extractable r = true →
  (∃ t, usage_tokens r = Some t) ∨
  (usage_tokens r = None ∧ py_contains "usage" r = Ok false).
Proof.
  destruct r as [| |str|l|d]; simpl; try discriminate.
  - intros H. right. split; [done|]. by apply negb_true_iff in H as ->.
  - intros H. right. split; [done|]. by apply negb_true_iff in H as ->.
  - destruct (d !! "usage") as [[| | | |u]|] eqn:Hu; try discriminate.
    + destruct (default (PInt 0) (u !! "total_tokens")); try discriminate. eauto.
    + intros _. right. split; [done|]. rewrite bool_decide_eq_false_2; [done|].
      intros [? ?]; discriminate.
Qed.

(** What [_log_api_usage] does to the attributes, whatever the response. *)
Lemma log_api_usage_frame ev operation r s :
  log_dir (_log_api_usage ev operation r s).2 = log_dir s ∧
  api_call_count (_log_api_usage ev operation r s).2 = api_call_count s + 1 ∧
  total_token_usage (_log_api_usage ev operation r s).2 =
    total_token_usage s + default 0 (usage_tokens r).
Proof.
  destruct (usage_tokens r) as [t|] eqn:Ht.
  - by destruct (log_api_usage_tokens ev operation r t s Ht) as [lines ->].
  - destruct (usage_extractable r) eqn:Hx.
    + destruct (extractable_cases r Hx) as [[t Ht']|[_ Hin]]; [congruence|].
      rewrite (log_api_usage_absent ev operation r s Hin). simpl.
      repeat split; lia.
    + destruct (log_api_usage_raises ev operation r s Hx) as (e & _ & ->).
      simpl. repeat split; lia.
Qed.

(** ** One call *)

(** A call whose delegate raises: the handler runs for an [Exception]. *)
Lemma perform_raises c e s :
  delegate (call_env c) = Raises e →
  perform c s =
  (Raise e, if is_Exception e then add_line (error_line c e) s else s).
Proof.
  intros Hd. destruct c as [ev doc|ev q p]; simpl in Hd; run_call; rewrite Hd;
    destruct (is_Exception e); reflexivity.
Qed.

(** A call whose delegate returns: what follows the accounting. *)
Lemma perform_returns c r s :
  delegate (call_env c) = Returns r →
  r ≠ PNone →
  perform c s =
  match _log_api_usage (call_env c) (op_name c) r s with
  | (Ok _, s') =>
      (Ok r, match c with Insert _ _ => add_line inserted_line s' | _ => s' end)
  | (Raise e, s') =>
      (Raise e, if is_Exception e then add_line (error_line c e) s' else s')
  end.
Proof.
  intros Hd Hr. destruct c as [ev doc|ev q p]; simpl in Hd; run_call; rewrite Hd.
  - destruct r; try congruence;
      (destruct (_log_api_usage _ _ _ s) as [[[]|e] s']; [reflexivity|];
       destruct (is_Exception e); reflexivity).
  - destruct (_log_api_usage _ _ _ s) as [[[]|e] s']; [reflexivity|].
    destruct (is_Exception e); reflexivity.
Qed.

Lemma insert_none ev doc s :
  delegate ev = Returns PNone →
  insert ev doc s = (Ok PNone, add_line none_warning s).
Proof. intros Hd. run_call. rewrite Hd. reflexivity. Qed.

Lemma perform_tokens c t s :
  call_tokens c = Some t →
  ∃ r lines,
    delegate (call_env c) = Returns r ∧
    perform c s =
    (Ok r,
     mk_state (log_dir s) (engine_attrs s) (api_call_count s + 1)
       (total_token_usage s + t) (encoding s) (usage_log s ++ lines)
       (append_block (disk (call_env c)) s
          (usage_record (api_call_count s + 1) (op_name c) t
             (total_token_usage s + t) (clock (call_env c))))).
Proof.
  unfold call_tokens.
  destruct (delegate (call_env c)) as [r|e] eqn:Hd; [|discriminate].
  intros Ht. exists r.
  rewrite (perform_returns c r s Hd) by (intros ->; discriminate Ht).
  destruct (log_api_usage_tokens (call_env c) (op_name c) r t s Ht) as [lines ->].
  destruct c.
  - exists (lines ++ [inserted_line]). split; [done|].
    unfold add_line, set_usage_log. simpl. by rewrite app_assoc.
  - exists lines. done.
Qed.

(** No call moves the log directory or lowers [api_call_count]; the total
    moves by the tokens the call reports. *)
Lemma perform_frame c s :
  log_dir (perform c s).2 = log_dir s ∧
  api_call_count s ≤ api_call_count (perform c s).2 ∧
  total_token_usage (perform c s).2 =
    total_token_usage s + default 0 (call_tokens c).
Proof.
  unfold call_tokens. destruct (delegate (call_env c)) as [r|e] eqn:Hd.
  - assert (Hlog : r ≠ PNone →
      log_dir (perform c s).2 = log_dir s ∧
      api_call_count s ≤ api_call_count (perform c s).2 ∧
      total_token_usage (perform c s).2 =
        total_token_usage s + default 0 (usage_tokens r)).
    { intros Hr. rewrite (perform_returns c r s Hd Hr).
      destruct (log_api_usage_frame (call_env c) (op_name c) r s)
        as (Hdir & Hn & Htot).
      destruct (_log_api_usage (call_env c) (op_name c) r s) as [[[]|e] s'];
        simpl in Hdir, Hn, Htot;
        [destruct c|destruct (is_Exception e)]; simpl; repeat split; lia || done. }
    destruct r; try (apply Hlog; discriminate).
    destruct c as [ev doc|ev q p]; simpl in Hd.
    + simpl. rewrite (insert_none ev doc s Hd). simpl. repeat split; lia.
    + destruct (log_api_usage_frame ev "query" PNone s) as (Hdir & Hn & Htot).
      run_call. rewrite Hd.
      destruct (_log_api_usage ev "query" PNone s) as [[[]|e] s'];
        simpl in Hdir, Hn, Htot;
        [|destruct (is_Exception e)]; simpl; repeat split; lia || done.
  - rewrite (perform_raises c e s Hd).
    destruct (is_Exception e); simpl; repeat split; lia.
Qed.

(** ** Sequences of calls *)

Lemma run_cons c cs s : run (c :: cs) s = run cs (perform c s).2.
Proof. reflexivity. Qed.

Lemma run_app cs1 cs2 s : run (cs1 ++ cs2) s = run cs2 (run cs1 s).
Proof. unfold run. apply fold_left_app. Qed.

Lemma run_log_dir cs s : log_dir (run cs s) = log_dir s.
Proof.
  revert s. induction cs as [|c cs IH]; intros s; [reflexivity|].
  rewrite run_cons, IH. apply perform_frame.
Qed.


Lemma run_tokens cs : ∀ ts s,
  call_tokens <$> cs = Some <$> ts →
  api_call_count (run cs s) = api_call_count s + Z.of_nat (length cs) ∧
  total_token_usage (run cs s) = total_token_usage s + sum_tokens ts.
Proof.
  induction cs as [|c cs IH]; intros [|t ts] s Heq; try discriminate Heq.
  - simpl. lia.
  - injection Heq as Hc Hcs. rewrite run_cons.
    destruct (perform_tokens c t s Hc) as (r & lines & _ & Hp).
    destruct (IH ts (perform c s).2 Hcs) as [-> ->].
    rewrite Hp. unfold sum_tokens.
    cbn [snd api_call_count total_token_usage length foldr]. lia.
Qed.


Lemma run_monotone cs : ∀ s,
  api_call_count s ≤ api_call_count (run cs s) ∧
  (Forall (λ c, nonneg_tokens c = true) cs →
   total_token_usage s ≤ total_token_usage (run cs s)).
Proof.
  induction cs as [|c cs IH]; intros s; [simpl; split; [lia|intros; lia]|].
  rewrite run_cons.
  destruct (perform_frame c s) as (_ & Hn & Htot).
  destruct (IH (perform c s).2) as [IHn IHtot].
  split; [lia|].
  intros Hpos. apply Forall_cons in Hpos as [Hc Hcs].
  specialize (IHtot Hcs). unfold nonneg_tokens in Hc.
  destruct (call_tokens c) as [t|]; simpl in Htot; lia.
Qed.




(** ** Construction *)

(** [_log_initialization] never raises and never touches a file: the
    [isinstance] test raises and the handler logs it. *)
Lemma log_initialization_run ie s :
  _log_initialization ie s =
  (Ok tt,
   add_line
     (mk_line ERROR
        [Lit "Error logging initialization parameters: ";
         Exc (mk_exn TypeError
                "isinstance() arg 2 must be a type, a tuple of types, or a union")])
     (add_line
        (mk_line INFO
           [Lit "LoggingLightRAG initialized with the following parameters:"])
        s)).
Proof. reflexivity. Qed.

Lemma init_success ie dir s0 s :
  __init__ ie dir s0 = (Ok tt, s) →
  log_dir s = dir ∧ api_call_count s = 0 ∧ total_token_usage s = 0 ∧
  files s = files s0.
Proof.
  unfold __init__, _set_logger. destruct ie as [mk bc sup io enc].
  cbv beta iota zeta delta
    [mbind M_bind mret M_ret raise_if raise modify lift get_state logging
     makedirs basic_config super_init encoding_for_model].
  destruct mk as [e|]; [discriminate|].
  destruct bc as [e|]; [discriminate|].
  destruct sup as [attrs|e]; [|discriminate].
  rewrite log_initialization_run.
  destruct enc as [v|e]; [|discriminate].
  intros H. injection H as <-. repeat split.
Qed.

Lemma s_init_constructed : constructed s_init.
Proof. exists ok_init, "./logs", before_init. reflexivity. Qed.


(** The worked example of the specification, evaluated: after the insert
    and the query the wrapper has counted 2 calls and 50 tokens. *)
Lemma spec_example :
  api_call_count (run example_calls s_init) = 2 ∧
  total_token_usage (run example_calls s_init) = 50.
Proof. split; reflexivity. Qed.

(** ** The claims *)

(** C1: after N calls whose responses each carry a usage field with token
    counts t1..tN, on a freshly constructed wrapper, [total_token_usage] is
    t1+..+tN and [api_call_count] is N. *)
Theorem usage_totals s0 cs ts :
  constructed s0 →
  call_tokens <$> cs = Some <$> ts →
  total_token_usage (run cs s0) = sum_tokens ts ∧
  api_call_count (run cs s0) = Z.of_nat (length cs).
Proof.
  intros (ie & dir & pre & Hinit) Hts.
  destruct (init_success _ _ _ _ Hinit) as (_ & Hn & Htot & _).
  destruct (run_tokens cs ts s0 Hts) as [-> ->]. lia.
Qed.

(** The example of the specification: 42 tokens on an insert, then 8 on a
    query. *)
Lemma usage_totals_witness :
  constructed s_init ∧
  call_tokens <$> example_calls = Some <$> [42; 8] ∧
  total_token_usage (run example_calls s_init) = sum_tokens [42; 8] ∧
  api_call_count (run example_calls s_init) = Z.of_nat (length example_calls).
Proof.
  split; [apply s_init_constructed|]. split; [reflexivity|].
  apply (usage_totals s_init example_calls [42; 8]);
    [apply s_init_constructed | reflexivity].
Defined.

(** C2, as stated, fails: a query whose response is the empty mapping
    leaves no usage record but raises [api_call_count] from 0 to 1. *)
Lemma usage_absent_counterexample :
  delegate (call_env bare_query) = Returns (PDict ∅) ∧
  (∅ : gmap string pyval) !! "usage" = None ∧
  api_call_count s_init = 0 ∧
  api_call_count (perform bare_query s_init).2 = 1.
Proof. repeat split. Qed.

(** C2, amended: for a call whose response is a mapping without a 'usage'
    field, a warning is logged, [total_token_usage] is unchanged, no record
    is appended to api_usage_log.json and the response is returned, while
    [api_call_count] is incremented by one. *)
Theorem usage_absent c d s :
  delegate (call_env c) = Returns (PDict d) →
  d !! "usage" = None →
  (perform c s).1 = Ok (PDict d) ∧
  (∃ rest, usage_log (perform c s).2 =
           usage_log s ++ usage_warning (op_name c) :: rest) ∧
  api_call_count (perform c s).2 = api_call_count s + 1 ∧
  total_token_usage (perform c s).2 = total_token_usage s ∧
  files (perform c s).2 = files s ∧
  api_usage_log_json (perform c s).2 = api_usage_log_json s.
Proof.
  intros Hd Hu.
  rewrite (perform_returns c _ s Hd) by discriminate.
  rewrite log_api_usage_absent.
  2:{ simpl. rewrite Hu, bool_decide_eq_false_2; [done|].
      intros [? ?]; discriminate. }
  destruct c; simpl; (split; [done|]); (split; [|done]).
  - eexists. rewrite <- app_assoc. reflexivity.
  - by exists [].
Qed.

(** A query answered by the empty mapping. *)
Lemma usage_absent_witness :
  delegate (call_env bare_query) = Returns (PDict ∅) ∧
  (∅ : gmap string pyval) !! "usage" = None ∧
  api_call_count (perform bare_query s_init).2 = api_call_count s_init + 1 ∧
  total_token_usage (perform bare_query s_init).2 = total_token_usage s_init.
Proof.
  split; [reflexivity|]. split; [reflexivity|].
  pose proof (usage_absent bare_query ∅ s_init eq_refl eq_refl) as H.
  split; apply H.
Defined.




(** C4: [_log_initialization] always completes, so construction goes on,
    and its failure is logged at error level; but the failure is certain:
    [isinstance(self, dataclass)] raises before the snapshot is taken, and
    initialization.json is never written. *)
Theorem log_initialization_writes_nothing ie s :
  (_log_initialization ie s).1 = Ok tt ∧
  files (_log_initialization ie s).2 = files s ∧
  ∃ e, exn_cls e = TypeError ∧
       usage_log (_log_initialization ie s).2 =
       usage_log s ++
       [mk_line INFO
          [Lit "LoggingLightRAG initialized with the following parameters:"];
        mk_line ERROR [Lit "Error logging initialization parameters: "; Exc e]].
Proof.
  rewrite log_initialization_run. split; [reflexivity|]. split; [reflexivity|].
  eexists. split; [|simpl; rewrite <- app_assoc; reflexivity]. reflexivity.
Qed.

(** A construction in which every external step succeeds still leaves no
    initialization.json behind. *)
Lemma construction_without_snapshot :
  (__init__ ok_init "./logs" before_init).1 = Ok tt ∧
  snapshot_disk ok_init = IoOk ∧
  initialization_json s_init = None.
Proof. repeat split. Qed.

(** C5, as stated, fails: an exception outside the [Exception] hierarchy,
    such as the [CancelledError] of a cancelled await, passes through
    without the error line being logged. *)
Lemma delegate_exception_counterexample :
  delegate (call_env cancelled_insert) = Raises cancelled ∧
  (perform cancelled_insert s_init).1 = Raise cancelled ∧
  usage_log (perform cancelled_insert s_init).2 = usage_log s_init.
Proof. repeat split. Qed.

(** C5, amended: when the delegate raises, the same exception reaches the
    caller; if it is an instance of [Exception], one error line is logged
    before it is re-raised, otherwise nothing is logged. *)
Theorem delegate_exception c e s :
  delegate (call_env c) = Raises e →
  (perform c s).1 = Raise e ∧
  usage_log (perform c s).2 =
    usage_log s ++ (if is_Exception e then [error_line c e] else []).
Proof.
  intros Hd. rewrite (perform_raises c e s Hd).
  destruct (is_Exception e); simpl; [done|]. by rewrite app_nil_r.
Qed.

(** A query whose delegate times out. *)
Lemma delegate_exception_witness :
  delegate (call_env failing_query) = Raises timeout_error ∧
  (perform failing_query s_init).1 = Raise timeout_error ∧
  usage_log (perform failing_query s_init).2 =
    usage_log s_init ++ [error_line failing_query timeout_error].
Proof.
  split; [reflexivity|].
  exact (delegate_exception failing_query timeout_error s_init eq_refl).
Defined.

(** C6: an insert whose delegate returns None logs a warning, leaves
    [api_call_count] and [total_token_usage] unchanged, writes no record
    and returns None. *)
Theorem insert_empty ev document s :
  delegate ev = Returns PNone →
  (insert ev document s).1 = Ok PNone ∧
  usage_log (insert ev document s).2 = usage_log s ++ [none_warning] ∧
  api_call_count (insert ev document s).2 = api_call_count s ∧
  total_token_usage (insert ev document s).2 = total_token_usage s ∧
  files (insert ev document s).2 = files s ∧
  api_usage_log_json (insert ev document s).2 = api_usage_log_json s.
Proof. intros Hd. rewrite (insert_none ev document s Hd). repeat split. Qed.

(** An insert answered by None on a fresh wrapper. *)
Lemma insert_empty_witness :
  delegate none_env = Returns PNone ∧
  (insert none_env (PStr "doc") s_init).1 = Ok PNone ∧
  api_call_count (insert none_env (PStr "doc") s_init).2 = api_call_count s_init ∧
  total_token_usage (insert none_env (PStr "doc") s_init).2 =
    total_token_usage s_init.
Proof.
  split; [reflexivity|].
  pose proof (insert_empty none_env (PStr "doc") s_init eq_refl) as H.
  repeat split; apply H.
Defined.




(** C8, as stated, fails: nothing checks the sign of the reported count, and
    a response reporting a negative 'total_tokens' lowers
    [total_token_usage]. *)
Lemma counters_monotone_counterexample :
  call_tokens refund_query = Some (-5) ∧
  total_token_usage s_init = 0 ∧
  total_token_usage (run [refund_query] s_init) = -5.
Proof. repeat split. Qed.

(** C8, amended: both counters are 0 after construction; over any further
    calls [api_call_count] never decreases, and [total_token_usage] never
    decreases as long as the token counts the responses report are
    non-negative. *)
Theorem counters_monotone s0 cs1 cs2 :
  constructed s0 →
  api_call_count s0 = 0 ∧ total_token_usage s0 = 0 ∧
  api_call_count (run cs1 s0) ≤ api_call_count (run (cs1 ++ cs2) s0) ∧
  (Forall (λ c, nonneg_tokens c = true) cs2 →
   total_token_usage (run cs1 s0) ≤ total_token_usage (run (cs1 ++ cs2) s0)).
Proof.
  intros (ie & dir & pre & Hinit).
  destruct (init_success _ _ _ _ Hinit) as (_ & Hn & Htot & _).
  rewrite run_app. split; [done|]. split; [done|]. apply run_monotone.
Qed.

(** The example calls, after a first query without usage data. *)
Lemma counters_monotone_witness :
  constructed s_init ∧
  Forall (λ c, nonneg_tokens c = true) example_calls ∧
  api_call_count s_init = 0 ∧ total_token_usage s_init = 0 ∧
  api_call_count (run [bare_query] s_init)
    ≤ api_call_count (run ([bare_query] ++ example_calls) s_init) ∧
  total_token_usage (run [bare_query] s_init)
    ≤ total_token_usage (run ([bare_query] ++ example_calls) s_init).
Proof.
  assert (Hpos : Forall (λ c, nonneg_tokens c = true) example_calls)
    by repeat constructor.
  split; [apply s_init_constructed|]. split; [exact Hpos|].
  destruct (counters_monotone s_init [bare_query] example_calls s_init_constructed)
    as (Hn & Htot & Hcalls & Htokens).
  split; [exact Hn|]. split; [exact Htot|]. split; [exact Hcalls|].
  exact (Htokens Hpos).
Defined.




(** C10: when the delegate raises, [api_call_count] and
    [total_token_usage] keep their values and no record is appended to
    api_usage_log.json. *)
Theorem delegate_exception_state c e s :
  delegate (call_env c) = Raises e →
  api_call_count (perform c s).2 = api_call_count s ∧
  total_token_usage (perform c s).2 = total_token_usage s ∧
  files (perform c s).2 = files s ∧
  api_usage_log_json (perform c s).2 = api_usage_log_json s.
Proof.
  intros Hd. rewrite (perform_raises c e s Hd).
  destruct (is_Exception e); repeat split.
Qed.

(** A query whose delegate times out, on a fresh wrapper. *)
Lemma delegate_exception_state_witness :
  delegate (call_env failing_query) = Raises timeout_error ∧
  api_call_count (perform failing_query s_init).2 = api_call_count s_init ∧
  total_token_usage (perform failing_query s_init).2 = total_token_usage s_init ∧
  api_usage_log_json (perform failing_query s_init).2 = api_usage_log_json s_init.
Proof.
  split; [reflexivity|].
  pose proof (delegate_exception_state failing_query timeout_error s_init eq_refl)
    as H.
  repeat split; apply H.
Defined.

(** ** One call, case by case *)

(** The exact lines of a call that reports [t] tokens. *)
Lemma log_api_usage_tokens_lines ev operation r t s :
  usage_tokens r = Some t →
  _log_api_usage ev operation r s =
  (Ok tt,
   mk_state (log_dir s) (engine_attrs s) (api_call_count s + 1)
     (total_token_usage s + t) (encoding s)
     (usage_log s ++
      usage_lines (api_call_count s + 1) operation t (total_token_usage s + t) ++
      [write_line (disk ev) (log_dir s) "api_usage_log.json"])
     (append_block (disk ev) s
        (usage_record (api_call_count s + 1) operation t
           (total_token_usage s + t) (clock ev)))).
Proof.
  intros Ht. destruct r as [| | | |d]; try discriminate Ht.
  simpl in Ht.
  destruct (d !! "usage") as [[| | | |u]|] eqn:Hu; try discriminate Ht.
  destruct (default (PInt 0) (u !! "total_tokens")) as [|z| | |] eqn:Htt;
    try discriminate Ht.
  injection Ht as ->.
  unfold api_usage_log_json, append_block, usage_record, usage_lines, write_line.
  destruct s; run_M. rewrite Hu, bool_decide_eq_true_2 by eauto. run_M.
  rewrite Htt.
  destruct (disk ev); run_M; rewrite <- ?app_assoc; reflexivity.
Qed.

Lemma tokens_counted c t : call_tokens c = Some t → is_counted c = true.
Proof.
  unfold call_tokens, is_counted.
  destruct (delegate (call_env c)) as [[]|]; try discriminate; done.
Qed.

(** A counted call hands the response to [_log_api_usage]. *)
Lemma perform_counted c r s :
  delegate (call_env c) = Returns r →
  is_counted c = true →
  perform c s =
  match _log_api_usage (call_env c) (op_name c) r s with
  | (Ok _, s') =>
      (Ok r, match c with Insert _ _ => add_line inserted_line s' | _ => s' end)
  | (Raise e, s') =>
      (Raise e, if is_Exception e then add_line (error_line c e) s' else s')
  end.
Proof.
  intros Hd Hc. unfold is_counted in Hc. rewrite Hd in Hc.
  destruct r; try (apply perform_returns; [exact Hd|discriminate]).
  destruct c as [ev doc|ev q p]; [discriminate Hc|].
  simpl in Hd. run_call. rewrite Hd.
  destruct (_log_api_usage ev "query" PNone s) as [[[]|e] s']; [reflexivity|].
  destruct (is_Exception e); reflexivity.
Qed.

(** Every call falls under one of five cases. *)
Lemma perform_cases c s :
  match delegate (call_env c) with
  | Raises e =>
      perform c s =
      (Raise e, if is_Exception e then add_line (error_line c e) s else s)
  | Returns r =>
      if is_counted c then
        match usage_tokens r with
        | Some t =>
            perform c s =
            (Ok r,
             mk_state (log_dir s) (engine_attrs s) (api_call_count s + 1)
               (total_token_usage s + t) (encoding s)
               (usage_log s ++
                usage_lines (api_call_count s + 1) (op_name c) t
                  (total_token_usage s + t) ++
                [write_line (disk (call_env c)) (log_dir s) "api_usage_log.json"] ++
                match c with Insert _ _ => [inserted_line] | _ => [] end)
               (append_block (disk (call_env c)) s
                  (usage_record (api_call_count s + 1) (op_name c) t
                     (total_token_usage s + t) (clock (call_env c)))))
        | None =>
            if usage_extractable r then
              perform c s =
              (Ok r,
               let s' := add_line (usage_warning (op_name c))
                           (set_api_call_count (api_call_count s + 1) s) in
               match c with Insert _ _ => add_line inserted_line s' | _ => s' end)
            else
              ∃ e, is_Exception e = true ∧
                   perform c s = (Raise e, after_failed_extraction c e s)
        end
      else r = PNone ∧ perform c s = (Ok PNone, add_line none_warning s)
  end.
Proof.
  destruct (delegate (call_env c)) as [r|e] eqn:Hd; [|by apply perform_raises].
  destruct (is_counted c) eqn:Hc.
  - rewrite (perform_counted c r s Hd Hc).
    destruct (usage_tokens r) as [t|] eqn:Ht.
    + rewrite (log_api_usage_tokens_lines _ _ r t s Ht).
      destruct c; unfold add_line, set_usage_log; simpl;
        rewrite <- ?app_assoc, ?app_nil_r; reflexivity.
    + destruct (usage_extractable r) eqn:Hx.
      * destruct (extractable_cases r Hx) as [[t Ht']|[_ Hin]]; [congruence|].
        by rewrite (log_api_usage_absent _ _ r s Hin).
      * destruct (log_api_usage_raises (call_env c) (op_name c) r s Hx)
          as (e & He & ->).
        exists e. split; [exact He|]. by rewrite He.
  - unfold is_counted in Hc. rewrite Hd in Hc.
    destruct r; try discriminate Hc. destruct c as [ev doc|ev q p]; [|discriminate Hc].
    split; [done|]. by apply insert_none.
Qed.

(** Splits a goal about [perform c s] along [perform_cases]. *)
Ltac by_cases c s :=
  let H := fresh "Hrun" in
  let Hd := fresh "Hd" in
  let Hc := fresh "Hc" in
  let Ht := fresh "Ht" in
  let Hx := fresh "Hx" in
  pose proof (perform_cases c s) as H;
  unfold call_record, reported_tokens, call_tokens;
  destruct (delegate (call_env c)) as [?r|?e] eqn:Hd;
  [ destruct (is_counted c) eqn:Hc;
    [ destruct (usage_tokens r) as [?t|] eqn:Ht;
      [ rewrite H
      | destruct (usage_extractable r) eqn:Hx;
        [ rewrite H | destruct H as (?e & ?He & ->) ] ]
    | destruct H as [-> ->] ]
  | rewrite H ].

Lemma perform_count c s :
  api_call_count (perform c s).2 =
  api_call_count s + (if is_counted c then 1 else 0).
Proof.
  by_cases c s; try (destruct c; simpl; lia).
  unfold is_counted. rewrite Hd. destruct (is_Exception e); simpl; lia.
Qed.

Lemma perform_total c s :
  total_token_usage (perform c s).2 = total_token_usage s + reported_tokens c.
Proof. apply perform_frame. Qed.

Lemma perform_config c s :
  log_dir (perform c s).2 = log_dir s ∧
  engine_attrs (perform c s).2 = engine_attrs s ∧
  encoding (perform c s).2 = encoding s.
Proof.
  by_cases c s; try (destruct c; done).
  destruct (is_Exception e); done.
Qed.

Lemma perform_files c s :
  files (perform c s).2 =
  match call_record (api_call_count s) (total_token_usage s) c with
  | Some rec => append_block IoOk s rec
  | None => files s
  end.
Proof.
  by_cases c s; try (destruct c; done).
  - by destruct (disk (call_env c)).
  - destruct (is_Exception e); done.
Qed.

Lemma perform_log c s :
  ∃ lines,
    usage_log (perform c s).2 = usage_log s ++ lines ∧
    (lines = [] ↔
     ∃ e, delegate (call_env c) = Raises e ∧ is_Exception e = false).
Proof.
  by_cases c s.
  - eexists. split; [reflexivity|]. split; [discriminate|].
    intros (? & ? & _); discriminate.
  - destruct c; simpl; eexists; (split; [rewrite <- ?app_assoc; reflexivity|]);
      (split; [discriminate|]); intros (? & ? & _); discriminate.
  - eexists. split; [reflexivity|]. split; [discriminate|].
    intros (? & ? & _); discriminate.
  - eexists. split; [reflexivity|]. split; [discriminate|].
    intros (? & ? & _); discriminate.
  - destruct (is_Exception e) eqn:He.
    + eexists. split; [reflexivity|]. split; [discriminate|].
      intros (e' & He' & Hf). congruence.
    + exists []. split; [by rewrite app_nil_r|]. split; [|done].
      intros _. by exists e.
Qed.

Lemma perform_usage_file c s :
  api_usage_log_json (perform c s).2 =
  api_usage_log_json s ++
  option_list (call_record (api_call_count s) (total_token_usage s) c).
Proof.
  unfold api_usage_log_json at 1.
  destruct (perform_config c s) as (-> & _ & _). rewrite perform_files.
  destruct (call_record _ _ c) as [rec|]; simpl.
  - by rewrite lookup_insert_eq.
  - by rewrite app_nil_r.
Qed.

(** ** Any sequence of calls *)

Lemma run_counters cs : ∀ s,
  api_call_count (run cs s) =
    api_call_count s + Z.of_nat (length (List.filter is_counted cs)) ∧
  total_token_usage (run cs s) =
    total_token_usage s + sum_tokens (reported_tokens <$> cs).
Proof.
  induction cs as [|c cs IH]; intros s; [simpl; lia|].
  rewrite run_cons. destruct (IH (perform c s).2) as [-> ->].
  rewrite perform_count, perform_total. unfold sum_tokens.
  rewrite fmap_cons. cbn [List.filter foldr].
  destruct (is_counted c); cbn [length]; lia.
Qed.

Lemma run_usage_file cs : ∀ s,
  api_usage_log_json (run cs s) =
  api_usage_log_json s ++
  records_of (api_call_count s) (total_token_usage s) cs.
Proof.
  induction cs as [|c cs IH]; intros s; [simpl; by rewrite app_nil_r|].
  rewrite run_cons, IH, perform_usage_file, perform_count, perform_total.
  simpl. by rewrite <- app_assoc.
Qed.

(** ** The records of any sequence of calls *)

Lemma call_record_index n total c rec :
  call_record n total c = Some rec →
  api_call_of rec = Some (n + 1) ∧ is_counted c = true.
Proof.
  unfold call_record. destruct (call_tokens c) as [t|] eqn:Ht; [|discriminate].
  destruct (disk (call_env c)); [|discriminate].
  intros [= <-]. split; [reflexivity|]. by apply (tokens_counted c t).
Qed.

Lemma records_of_length cs : ∀ n total,
  (length (records_of n total cs) ≤ length cs)%nat.
Proof.
  induction cs as [|c cs IH]; intros n total; [simpl; lia|].
  cbn [records_of]. rewrite length_app. specialize (IH (n + (if is_counted c then 1 else 0)) (total + reported_tokens c)).
  destruct (call_record n total c); simpl in *; lia.
Qed.

(** Every record carries an index above the count it started from and not
    above the count reached. *)
Lemma records_of_bounds cs : ∀ n total k rec,
  records_of n total cs !! k = Some rec →
  ∃ a, api_call_of rec = Some a ∧
       n < a ≤ n + Z.of_nat (length (List.filter is_counted cs)).
Proof.
  induction cs as [|c cs IH]; intros n total k rec Hk; [discriminate Hk|].
  cbn [records_of] in Hk. cbn [List.filter].
  destruct (call_record n total c) as [rec0|] eqn:Hrec; simpl in Hk.
  - destruct (call_record_index _ _ _ _ Hrec) as [Hidx Hc]. rewrite Hc in *.
    destruct k as [|k]; simpl in Hk.
    + injection Hk as <-. exists (n + 1). split; [done|]. cbn [length]. lia.
    + destruct (IH _ _ _ _ Hk) as (a & Ha & Hb). exists a. split; [done|].
      cbn [length]. lia.
  - destruct (IH _ _ _ _ Hk) as (a & Ha & Hb). exists a. split; [done|].
    destruct (is_counted c); cbn [length]; lia.
Qed.

Lemma records_of_increasing cs : ∀ n total i j ri rj a b,
  (i < j)%nat →
  records_of n total cs !! i = Some ri →
  records_of n total cs !! j = Some rj →
  api_call_of ri = Some a → api_call_of rj = Some b →
  a < b.
Proof.
  induction cs as [|c cs IH]; intros n total i j ri rj a b Hij Hi Hj Ha Hb;
    [discriminate Hi|].
  cbn [records_of] in Hi, Hj.
  destruct (call_record n total c) as [rec0|] eqn:Hrec; simpl in Hi, Hj.
  - destruct (call_record_index _ _ _ _ Hrec) as [Hidx Hc]. rewrite Hc in *.
    destruct j as [|j]; [lia|]. simpl in Hj.
    destruct i as [|i]; simpl in Hi.
    + injection Hi as <-. rewrite Hidx in Ha. injection Ha as <-.
      destruct (records_of_bounds _ _ _ _ _ Hj) as (b' & Hb' & Hlt & _).
      rewrite Hb in Hb'. injection Hb' as <-. lia.
    + eapply (IH _ _ i j); eauto. lia.
  - eapply (IH _ _ i j); eauto.
Qed.

(** ** Strings and paths *)

Lemma prefix_append n post : String.prefix n (n +:+ post) = true.
Proof.
  induction n as [|a n IH]; simpl; [by destruct post|].
  destruct (Ascii.ascii_dec a a); [exact IH|done].
Qed.

Lemma prefix_split n : ∀ h, String.prefix n h = true → ∃ post, h = n +:+ post.
Proof.
  induction n as [|a n IH]; intros h Hp; [by exists h|].
  destruct h as [|b h]; [discriminate Hp|]. simpl in Hp.
  destruct (Ascii.ascii_dec a b) as [->|]; [|discriminate Hp].
  destruct (IH h Hp) as [post ->]. by exists post.
Qed.

Lemma str_contains_prefix n h :
  String.prefix n h = true → str_contains n h = true.
Proof. intros H. destruct h; cbn [str_contains]; by rewrite H. Qed.

(** The test [needle in hay] on strings finds exactly the substrings. *)
Lemma str_contains_spec n h : str_contains n h = true ↔ is_substring n h.
Proof.
  split.
  - induction h as [|a h IH]; cbn [str_contains]; intros H;
      apply orb_true_iff in H as [H|H]; try discriminate H.
    + destruct (prefix_split n _ H) as [post Hpost]. by exists "", post.
    + destruct (prefix_split n _ H) as [post Hpost]. by exists "", post.
    + destruct (IH H) as (pre & post & ->). by exists (String a pre), post.
  - intros (pre & post & ->). induction pre as [|a pre IH].
    + change (str_contains n (n +:+ post) = true).
      apply str_contains_prefix, prefix_append.
    + change (str_contains n (String a (pre +:+ n +:+ post)) = true).
      cbn [str_contains]. rewrite IH. apply orb_true_r.
Qed.

Lemma append_inj_l a : ∀ b1 b2, a +:+ b1 = a +:+ b2 → b1 = b2.
Proof.
  induction a as [|c a IH]; intros b1 b2 H; [exact H|].
  injection H as H. by apply IH.
Qed.

(** Two relative names joined to one directory give one path only if they
    are one name. *)
Lemma os_path_join_inj a b1 b2 :
  String.prefix "/" b1 = false →
  String.prefix "/" b2 = false →
  os_path_join a b1 = os_path_join a b2 →
  b1 = b2.
Proof.
  unfold os_path_join. intros -> ->.
  destruct (String.eqb a ""); [done|].
  destruct (ends_with_slash a); intros H.
  - by apply append_inj_l in H.
  - apply append_inj_l in H. by apply (append_inj_l "/") in H.
Qed.

(** ** Construction, step by step *)

Lemma init_run ie dir s0 :
  __init__ ie dir s0 =
  match makedirs ie with
  | Some e => (Raise e, set_log_dir dir s0)
  | None =>
      match basic_config ie with
      | Some e => (Raise e, set_log_dir dir s0)
      | None =>
          let s1 :=
            add_line
              (mk_line INFO
                 [Lit "Logger initialized. Writing logs to ";
                  Lit (os_path_join dir "usage.log"); Lit "."])
              (set_log_dir dir s0) in
          match super_init ie with
          | Raise e => (Raise e, s1)
          | Ok attrs =>
              let s2 :=
                (_log_initialization ie
                   (set_total_token_usage 0
                      (set_api_call_count 0 (set_engine_attrs attrs s1)))).2 in
              match encoding_for_model ie with
              | Raise e => (Raise e, s2)
              | Ok enc => (Ok tt, set_encoding (Some enc) s2)
              end
          end
      end
  end.
Proof.
  unfold __init__, _set_logger. destruct ie as [mk bc sup io enc].
  cbv beta iota zeta delta
    [mbind M_bind mret M_ret raise_if raise modify lift get_state logging
     makedirs basic_config super_init encoding_for_model add_line].
  destruct mk as [e|]; [reflexivity|].
  destruct bc as [e|]; [reflexivity|].
  destruct sup as [attrs|e]; [|reflexivity].
  rewrite !log_initialization_run.
  destruct enc as [v|e]; reflexivity.
Qed.

(** ** Further properties *)

Lemma tokens_extractable r t :
  usage_tokens r = Some t → usage_extractable r = true.
Proof.
  destruct r as [| | | |d]; simpl; try discriminate.
  destruct (d !! "usage") as [[| | | |u]|]; try discriminate.
  destruct (default (PInt 0) (u !! "total_tokens")); try discriminate. done.
Qed.

Lemma counted_Permutation cs1 cs2 :
  cs1 ≡ₚ cs2 →
  length (List.filter is_counted cs1) = length (List.filter is_counted cs2).
Proof.
  induction 1 as [|c l1 l2 _ IH|c1 c2 l|l1 l2 l3 _ IH1 _ IH2]; cbn [List.filter].
  - reflexivity.
  - destruct (is_counted c); cbn [length]; congruence.
  - destruct (is_counted c1), (is_counted c2); reflexivity.
  - congruence.
Qed.

Lemma sum_tokens_Permutation l1 l2 : l1 ≡ₚ l2 → sum_tokens l1 = sum_tokens l2.
Proof.
  unfold sum_tokens.
  induction 1 as [|x l1 l2 _ IH|x y l|l1 l2 l3 _ IH1 _ IH2]; simpl; lia.
Qed.

(** X1: over any sequence of calls, [api_call_count] grows by the number
    of calls whose delegate returned (something other than None, for an
    insert), and [total_token_usage] by the tokens the responses reported. *)
Theorem run_counts_exactly cs s :
  api_call_count (run cs s) =
    api_call_count s + Z.of_nat (length (List.filter is_counted cs)) ∧
  total_token_usage (run cs s) =
    total_token_usage s + sum_tokens (reported_tokens <$> cs).
Proof. apply run_counters. Qed.

(** X2: the counters reached do not depend on the order of the calls. *)
Theorem run_order_irrelevant cs1 cs2 s :
  cs1 ≡ₚ cs2 →
  api_call_count (run cs1 s) = api_call_count (run cs2 s) ∧
  total_token_usage (run cs1 s) = total_token_usage (run cs2 s).
Proof.
  intros Hp.
  destruct (run_counters cs1 s) as [-> ->].
  destruct (run_counters cs2 s) as [-> ->].
  rewrite (counted_Permutation cs1 cs2 Hp).
  rewrite (sum_tokens_Permutation (reported_tokens <$> cs1) (reported_tokens <$> cs2));
    [done|]. by apply fmap_Permutation.
Qed.

(** The example calls, and the query before the insert. *)
Lemma run_order_irrelevant_witness :
  example_calls ≡ₚ swapped_calls ∧
  api_call_count (run example_calls s_init) =
    api_call_count (run swapped_calls s_init) ∧
  total_token_usage (run example_calls s_init) =
    total_token_usage (run swapped_calls s_init).
Proof.
  assert (Hp : example_calls ≡ₚ swapped_calls) by apply perm_swap.
  split; [exact Hp|].
  exact (run_order_irrelevant example_calls swapped_calls s_init Hp).
Defined.

(** X3: when the usage extraction raises on a response, the call raises
    that exception, one error line is logged, the total and the files are
    unchanged, and the call has been counted all the same. *)
Theorem extraction_failure_counted c r s :
  delegate (call_env c) = Returns r →
  r ≠ PNone →
  usage_extractable r = false →
  ∃ e, is_Exception e = true ∧
       (perform c s).1 = Raise e ∧
       api_call_count (perform c s).2 = api_call_count s + 1 ∧
       total_token_usage (perform c s).2 = total_token_usage s ∧
       files (perform c s).2 = files s ∧
       usage_log (perform c s).2 = usage_log s ++ [error_line c e].
Proof.
  intros Hd Hr Hx. pose proof (perform_cases c s) as H. rewrite Hd in H.
  assert (Hc : is_counted c = true).
  { unfold is_counted. rewrite Hd. by destruct r. }
  rewrite Hc, Hx in H.
  destruct (usage_tokens r) as [t|] eqn:Ht.
  { apply tokens_extractable in Ht. congruence. }
  destruct H as (e & He & ->). exists e. done.
Qed.

(** A query answered by a mapping whose usage is null. *)
Lemma extraction_failure_counted_witness :
  delegate (call_env null_usage_query) = Returns (PDict {[ "usage" := PNone ]}) ∧
  ∃ e, (perform null_usage_query s_init).1 = Raise e ∧
       api_call_count (perform null_usage_query s_init).2 =
         api_call_count s_init + 1.
Proof.
  split; [reflexivity|].
  destruct (extraction_failure_counted null_usage_query
              (PDict {[ "usage" := PNone ]}) s_init eq_refl)
    as (e & _ & Hres & Hn & _); [discriminate|reflexivity|].
  exists e. split; assumption.
Defined.

(** X4: unlike an insert, a query whose delegate returns None raises
    [TypeError]: the membership test is applied to None.  The call is
    counted, an error line is logged, and nothing else changes. *)
Theorem query_none_raises ev q p s :
  delegate ev = Returns PNone →
  let e := mk_exn TypeError "argument of type 'NoneType' is not iterable" in
  (query ev q p s).1 = Raise e ∧
  api_call_count (query ev q p s).2 = api_call_count s + 1 ∧
  total_token_usage (query ev q p s).2 = total_token_usage s ∧
  files (query ev q p s).2 = files s ∧
  usage_log (query ev q p s).2 = usage_log s ++ [error_line (Query ev q p) e].
Proof. intros Hd. run_call. rewrite Hd. repeat split. Qed.

(** A query answered by None on a fresh wrapper. *)
Lemma query_none_raises_witness :
  delegate none_env = Returns PNone ∧
  (query none_env (PStr "question") PNone s_init).1 =
    Raise (mk_exn TypeError "argument of type 'NoneType' is not iterable") ∧
  api_call_count (query none_env (PStr "question") PNone s_init).2 =
    api_call_count s_init + 1.
Proof.
  split; [reflexivity|].
  pose proof (query_none_raises none_env (PStr "question") PNone s_init eq_refl) as H.
  split; apply H.
Defined.

(** X5: a response that is a string is returned, with a warning, exactly
    when it does not contain the text "usage"; when it does, the call
    raises [TypeError], because the string is then subscripted with
    'usage'. *)
Theorem string_response c str s :
  delegate (call_env c) = Returns (PStr str) →
  (¬ is_substring "usage" str →
   (perform c s).1 = Ok (PStr str) ∧
   ∃ rest, usage_log (perform c s).2 =
           usage_log s ++ usage_warning (op_name c) :: rest) ∧
  (is_substring "usage" str →
   (perform c s).1 =
     Raise (mk_exn TypeError "string indices must be integers, not 'str'")).
Proof.
  intros Hd.
  assert (Hc : is_counted c = true) by (unfold is_counted; by rewrite Hd).
  rewrite (perform_counted c _ s Hd Hc).
  destruct (str_contains "usage" str) eqn:Hx.
  - split; [intros Hn; destruct Hn; by apply str_contains_spec|]. intros _.
    destruct s. run_M. rewrite Hx. reflexivity.
  - split; [|intros Hs; apply str_contains_spec in Hs; congruence]. intros _.
    rewrite log_api_usage_absent by (simpl; by rewrite Hx).
    destruct c; simpl; (split; [done|]).
    + eexists. rewrite <- app_assoc. reflexivity.
    + by exists [].
Qed.

(** An answer in prose that happens to mention usage. *)
Lemma string_response_witness :
  delegate (call_env usage_prose_query) = Returns (PStr "Token usage was low.") ∧
  is_substring "usage" "Token usage was low." ∧
  (perform usage_prose_query s_init).1 =
    Raise (mk_exn TypeError "string indices must be integers, not 'str'").
Proof.
  assert (Hs : is_substring "usage" "Token usage was low.")
    by (exists "Token ", " was low."; reflexivity).
  split; [reflexivity|]. split; [exact Hs|].
  exact (proj2 (string_response usage_prose_query "Token usage was low." s_init
                  eq_refl) Hs).
Defined.



(** X15: for every log directory the three files of the wrapper have three
    different paths. *)
Theorem log_files_distinct dir :
  os_path_join dir "usage.log" ≠ os_path_join dir "api_usage_log.json" ∧
  os_path_join dir "usage.log" ≠ os_path_join dir "initialization.json" ∧
  os_path_join dir "api_usage_log.json" ≠ os_path_join dir "initialization.json".
Proof.
  repeat split; intros H; apply os_path_join_inj in H; done.
Qed.

(** X9: the lines a call logs itself come after those the wrapper logged
    before, and the call logs none exactly when the delegate raised an
    exception that is no [Exception]: every other path through [insert]
    and [query] makes at least one logging call. *)
Theorem call_leaves_trace c s :
  ∃ lines,
    usage_log (perform c s).2 = usage_log s ++ lines ∧
    (lines = [] ↔
     ∃ e, delegate (call_env c) = Raises e ∧ is_Exception e = false).
Proof. apply perform_log. Qed.

(** X10: whatever the calls do (responses of any shape, raising delegates,
    failed writes), api_usage_log.json only grows, by at most one record a
    call; every new record carries a call index above the count before the
    calls and not above the count after them, and the indices of the new
    records are strictly increasing. *)
Theorem records_indices cs s :
  ∃ recs,
    api_usage_log_json (run cs s) = api_usage_log_json s ++ recs ∧
    (length recs ≤ length cs)%nat ∧
    (∀ k rec, recs !! k = Some rec →
       ∃ a, api_call_of rec = Some a ∧
            api_call_count s < a ≤ api_call_count (run cs s)) ∧
    (∀ i j ri rj a b, (i < j)%nat →
       recs !! i = Some ri → recs !! j = Some rj →
       api_call_of ri = Some a → api_call_of rj = Some b →
       a < b).
Proof.
  exists (records_of (api_call_count s) (total_token_usage s) cs).
  split; [apply run_usage_file|]. split; [apply records_of_length|]. split.
  - intros k rec Hk. destruct (run_counters cs s) as [-> _].
    by apply (records_of_bounds cs _ (total_token_usage s) k).
  - apply records_of_increasing.
Qed.



(** X12: construction succeeds exactly when [os.makedirs],
    [logging.basicConfig], [LightRAG.__init__] and
    [tiktoken.encoding_for_model] all succeed; whether the snapshot could
    have been written plays no part. *)
Theorem init_outcome ie dir s0 :
  (__init__ ie dir s0).1 = Ok tt ↔
  makedirs ie = None ∧ basic_config ie = None ∧
  (∃ attrs, super_init ie = Ok attrs) ∧
  (∃ enc, encoding_for_model ie = Ok enc).
Proof.
  rewrite init_run.
  destruct (makedirs ie) as [e1|];
    [split; [discriminate|intros (H & _); discriminate H]|].
  destruct (basic_config ie) as [e2|];
    [split; [discriminate|intros (_ & H & _); discriminate H]|].
  destruct (super_init ie) as [attrs|e3];
    [|split; [discriminate|intros (_ & _ & [? H] & _); discriminate H]].
  destruct (encoding_for_model ie) as [enc|e4];
    [|split; [discriminate|intros (_ & _ & _ & [? H]); discriminate H]].
  split; [|done]. intros _. repeat split; eauto.
Qed.



(** X16: when [os.makedirs] or [logging.basicConfig] raises, construction
    raises that exception having only assigned [log_dir]: nothing is
    logged, no counter is set and no file is written. *)
Theorem init_early_failure ie dir s0 e :
  makedirs ie = Some e ∨ (makedirs ie = None ∧ basic_config ie = Some e) →
  __init__ ie dir s0 = (Raise e, set_log_dir dir s0).
Proof.
  rewrite init_run. intros [->|[-> ->]]; reflexivity.
Qed.

(** A log directory that cannot be created. *)
Lemma init_early_failure_witness :
  makedirs no_directory = Some (mk_exn OSError "Permission denied") ∧
  __init__ no_directory "/var/log/rag" before_init =
    (Raise (mk_exn OSError "Permission denied"),
     set_log_dir "/var/log/rag" before_init).
Proof.
  split; [reflexivity|].
  exact (init_early_failure no_directory "/var/log/rag" before_init
           (mk_exn OSError "Permission denied") (or_introl eq_refl)).
Defined.
